(** * A shallow embedding of horatio's IRC client, its dispatcher, its
    chat.postMessage handler, and the lab bot's claim/release state.

    Sources: cmd/horatio/irccclient.go, cmd/horatio/main.go,
    cmd/horatio/app.go, cmd/horatio/webapi.go and the bot logic with
    [take], [release] and [status]. *)

From Stdlib Require Import String Ascii List ZArith Lia Bool.
Import ListNotations.
Open Scope string_scope.

(** ** Data model *)

(** [irc.Message] of github.com/horgh/irc. *)
Record Message := mkMessage {
  Prefix : string;
  Command : string;
  Params : list string;
}.

(** The Go zero value [irc.Message{}]. *)
Definition zeroMessage : Message := mkMessage "" "" [].

(** A message built as [irc.Message{Command: c, Params: ps}]. *)
Definition msg (c : string) (ps : list string) : Message := mkMessage "" c ps.

(** Outcome of a Go statement that may block or panic. *)
Inductive Outcome (A : Type) :=
| Done (a : A)
| Blocked
| Panicked.
Arguments Done {A} a.
Arguments Blocked {A}.
Arguments Panicked {A}.

Definition bindO {A B} (o : Outcome A) (f : A -> Outcome B) : Outcome B :=
  match o with
  | Done a => f a
  | Blocked => Blocked
  | Panicked => Panicked
  end.

Notation "x <- o ;; k" := (bindO o (fun x => k))
  (at level 61, o at next level, right associativity).

(** Both channels are made with [make(chan irc.Message, 1024)]. *)
Definition chanCap : nat := 1024.

(** The state of one [IRCClient]: the socket, the two buffered channels, and
    whether the reader and writer goroutines are still running. *)
Record Conn := mkConn {
  sock_open : bool;
  readq : list Message;
  readq_closed : bool;
  wchan : list Message;
  wchan_closed : bool;
  reader_running : bool;
  writer_running : bool;
}.

Definition set_wchan (c : Conn) (q : list Message) (cl : bool) : Conn :=
  mkConn (sock_open c) (readq c) (readq_closed c) q cl
         (reader_running c) (writer_running c).

Definition set_sock (c : Conn) (b : bool) : Conn :=
  mkConn b (readq c) (readq_closed c) (wchan c) (wchan_closed c)
         (reader_running c) (writer_running c).

(** [c.writeChan <- m]: a send on a closed channel panics, a send on a full
    channel blocks. *)
Definition Write (c : Conn) (m : Message) : Outcome Conn :=
  if wchan_closed c then Panicked
  else if Nat.leb chanCap (length (wchan c)) then Blocked
  else Done (set_wchan c (wchan c ++ [m]) false).

(** [Close]: [close(c.writeChan)] (panics when already closed), then
    [c.conn.Close()] whose error is ignored. *)
Definition Close (c : Conn) : Outcome Conn :=
  if wchan_closed c then Panicked
  else Done (set_sock (set_wchan c (wchan c) true) false).

(** ** Registration: [IRCClient.init] *)

(** What one iteration of the [select] in [init] observes, in the order the
    events happen: the 5 second timer fires, a message is received, or the
    read channel is closed and drained ([ok] is false). *)
Inductive Sel :=
| SelTimeout
| SelRecv (m : Message)
| SelClosed.

Inductive InitError :=
| ErrTimeout
| ErrReadClosed
| ErrUnexpected (m : Message)
| ErrDial.

(** The [for { select { ... } }] loop of [init]. [None] is success (the
    function returns nil); the remaining events are those not consumed.
    When the events run out, the loop is still waiting. *)
Fixpoint init_wait (sels : list Sel) : Outcome (option InitError * list Sel) :=
  match sels with
  | [] => Blocked
  | SelTimeout :: rest => Done (Some ErrTimeout, rest)
  | SelClosed :: rest => Done (Some ErrReadClosed, rest)
  | SelRecv m :: rest =>
      if String.eqb (Command m) "001" then Done (None, rest)
      else if String.eqb (Command m) "NOTICE" then init_wait rest
      else Done (Some (ErrUnexpected m), rest)
  end.

Definition nickMsg (nick : string) : Message := msg "NICK" [nick].
Definition userMsg (nick : string) : Message := msg "USER" [nick; nick; "0"; nick].
Definition joinMsg (channel : string) : Message := msg "JOIN" [channel].

(** [IRCClient.init]: three writes, then the wait loop. *)
Definition init (c : Conn) (nick channel : string) (sels : list Sel)
  : Outcome (option InitError * list Sel * Conn) :=
  c1 <- Write c (nickMsg nick) ;;
  c2 <- Write c1 (userMsg nick) ;;
  c3 <- Write c2 (joinMsg channel) ;;
  r <- init_wait sels ;;
  Done (fst r, snd r, c3).

(** The client right after [NewIRCClient] has dialed and started both
    goroutines. *)
Definition freshConn : Conn := mkConn true [] false [] false true true.

(** The client after the three registration writes on a fresh connection. *)
Definition registeredConn (nick channel : string) : Conn :=
  set_wchan freshConn [nickMsg nick; userMsg nick; joinMsg channel] false.

Inductive OpenResult :=
| OpenOk (c : Conn)
| OpenErr (e : InitError) (c : Conn).

(** The reader goroutine once it has run [close(c.readChan)] and returned. *)
Definition reader_exited (c : Conn) : Conn :=
  mkConn (sock_open c) (readq c) true (wchan c) (wchan_closed c)
         false (writer_running c).

(** The reader goroutine runs concurrently with [NewIRCClient]: when the
    peer closes the connection, or when [conn.Close()] makes its pending
    [ReadString] fail, it closes [c.readChan] and returns, and whether this
    has happened when [NewIRCClient] returns is up to the scheduler. [gone]
    is that outcome of the race. *)
Definition reader_race (gone : bool) (c : Conn) : Conn :=
  if gone then reader_exited c else c.

(** The wait loop sees the read channel closed only once [reader] has run
    [close(c.readChan)] and returned; otherwise the race decides. *)
Definition after_wait (e : InitError) (gone : bool) (c : Conn) : Conn :=
  match e with
  | ErrReadClosed => reader_exited c
  | _ => reader_race gone c
  end.

(** [NewIRCClient]: dial, build the client, start [reader] and [writer],
    run [init]; on an [init] error, [_ = conn.Close()] and return the error.
    The [Conn] returned with the result is the state when [NewIRCClient]
    returns, [gone] being the outcome of the race with the reader. *)
Definition NewIRCClient (dial_ok : bool) (nick channel : string)
  (sels : list Sel) (gone : bool) : Outcome OpenResult :=
  if negb dial_ok then Done (OpenErr ErrDial (mkConn false [] false [] false false false))
  else
    r <- init freshConn nick channel sels ;;
    match r with
    | (None, _, c) => Done (OpenOk (reader_race gone c))
    | (Some e, _, c) => Done (OpenErr e (set_sock (after_wait e gone c) false))
    end.

(** ** The dispatcher loop of [main] (cmd/horatio/main.go) *)

(** [Event] of the event-delivery payload; [Type] is always "message". *)
Record Event := mkEvent {
  ev_channel : string;
  ev_user : string;
  ev_text : string;
}.

(** Go slice indexing [xs[i]]: out of range panics. *)
Definition index {A} (xs : list A) (i : nat) : Outcome A :=
  match nth_error xs i with
  | Some x => Done x
  | None => Panicked
  end.

(** Go string indexing [s[i]]: out of range panics. *)
Definition sindex (s : string) (i : nat) : Outcome ascii :=
  match String.get i s with
  | Some ch => Done ch
  | None => Panicked
  end.

(** The [MessageEvent] built by [dispatchEvent]: the composite literal reads
    [m.Params[0]], then [m.Prefix], then [m.Params[1]]. The result is the
    list of events handed to the HTTP delivery (one POST). *)
Definition dispatchEvent (m : Message) : Outcome (list Event) :=
  ch <- index (Params m) 0 ;;
  tx <- index (Params m) 1 ;;
  Done [mkEvent ch (Prefix m) tx].

(** One iteration of the [for] loop of [main] on a message [m] received
    from [client.readChan]: the new client state and the events delivered. *)
Definition main_step (c : Conn) (m : Message) : Outcome (Conn * list Event) :=
  if String.eqb (Command m) "PING" then
    p <- index (Params m) 0 ;;
    c' <- Write c (msg "PONG" [p]) ;;
    Done (c', [])
  else if negb (String.eqb (Command m) "PRIVMSG") then Done (c, [])
  else
    p0 <- index (Params m) 0 ;;
    b <- sindex p0 0 ;;
    if negb (Ascii.eqb b "#"%char) then Done (c, [])
    else
      evs <- dispatchEvent m ;;
      Done (c, evs).

(** ** The read side: [readMessage], [reader], [Read] *)

(** Errors of [irc.ParseMessage]: [irc.ErrTruncated] or any other. *)
Inductive ParseErr := ErrTruncated | ErrParseOther.

(** What one [readMessage] call sees: an error from setting the deadline or
    from [ReadString], or a line that [irc.ParseMessage] turned into the
    message [m] together with its error. *)
Inductive ReadRes :=
| RdErr
| RdLine (m : Message) (e : option ParseErr).

(** [readMessage]: [inl m] is a message, [inr tt] an error. *)
Definition readMessage (r : ReadRes) : Message + unit :=
  match r with
  | RdErr => inr tt
  | RdLine m None => inl m
  | RdLine m (Some ErrTruncated) => inl m
  | RdLine _ (Some ErrParseOther) => inr tt
  end.

Definition set_readq (c : Conn) (q : list Message) (cl running : bool) : Conn :=
  mkConn (sock_open c) q cl (wchan c) (wchan_closed c) running (writer_running c).

(** [c.readChan <- m]. *)
Definition pushRead (c : Conn) (m : Message) : Outcome Conn :=
  if readq_closed c then Panicked
  else if Nat.leb chanCap (length (readq c)) then Blocked
  else Done (set_readq c (readq c ++ [m]) false (reader_running c)).

(** The [reader] goroutine over the successive [readMessage] inputs; on an
    error it runs [close(c.readChan)] and returns. *)
Fixpoint reader (rs : list ReadRes) (c : Conn) : Outcome Conn :=
  match rs with
  | [] => Done c
  | r :: rs' =>
      match readMessage r with
      | inr _ =>
          if readq_closed c then Panicked
          else Done (set_readq c (readq c) true false)
      | inl m =>
          c' <- pushRead c m ;;
          reader rs' c'
      end
  end.

(** [Read]: [m, ok := <-c.readChan]. *)
Definition Read (c : Conn) : Outcome (Message * bool * Conn) :=
  match readq c with
  | m :: q => Done (m, true, set_readq c q (readq_closed c) (reader_running c))
  | [] => if readq_closed c then Done (zeroMessage, false, c) else Blocked
  end.

(** [n] successive [Read] calls. *)
Fixpoint Reads (n : nat) (c : Conn) : Outcome (list (Message * bool)) :=
  match n with
  | 0 => Done []
  | S n' =>
      r <- Read c ;;
      let '(m, ok, c') := r in
      rest <- Reads n' c' ;;
      Done ((m, ok) :: rest)
  end.

(** ** The write side: [writeMessage] *)

(** Errors of [irc.Message.Encode]: [irc.ErrTruncated] or any other. *)
Inductive EncodeErr := EncTruncated | EncOther.

Inductive WriteError := WErrEncode | WErrDeadline | WErrWrite | WErrShort | WErrFlush.

(** The socket side of one write: whether setting the deadline works, how
    many bytes [WriteString] accepts (or an error), whether [Flush] works. *)
Record SockIO := mkSockIO {
  deadline_ok : bool;
  write_res : option nat;
  flush_ok : bool;
}.

(** [writeMessage] given the result [(buf, err)] of [m.Encode()]: the error
    returned (None is nil) and the text handed to the socket. *)
Definition writeMessage (enc : string * option EncodeErr) (io : SockIO)
  : option WriteError * string :=
  let '(buf, err) := enc in
  match err with
  | Some EncOther => (Some WErrEncode, "")
  | _ =>
      if negb (deadline_ok io) then (Some WErrDeadline, "")
      else match write_res io with
           | None => (Some WErrWrite, buf)
           | Some sz =>
               if negb (Nat.eqb sz (String.length buf)) then (Some WErrShort, buf)
               else if negb (flush_ok io) then (Some WErrFlush, buf)
               else (None, buf)
           end
  end.

(** Maximum IRC line length, CRLF included, used by the encoder. *)
Definition MaxLineLength : nat := 512.

(** A simplified model of [irc.Message.Encode] of the dependency
    github.com/horgh/irc (not part of this repository): prefix, command and
    parameters joined by spaces, a colon before a last parameter that is
    empty, contains a space or starts with a colon, CRLF at the end; a line
    that would be longer than [MaxLineLength] is cut to fit and reported
    with [ErrTruncated]. Only this last behaviour matters below. *)
Definition needs_colon (p : string) : bool :=
  match String.get 0 p with
  | None => true
  | Some ch => Ascii.eqb ch ":"%char || match String.index 0 " " p with
                                       | Some _ => true | None => false end
  end.

Fixpoint join_params (ps : list string) : string :=
  match ps with
  | [] => ""
  | [p] => " " ++ (if needs_colon p then ":" ++ p else p)
  | p :: ps' => " " ++ p ++ join_params ps'
  end.

Definition crlf : string := String (ascii_of_nat 13) (String (ascii_of_nat 10) "").

(** The line of [m] without its CRLF, before any truncation. *)
Definition line_of (m : Message) : string :=
  (if String.eqb (Prefix m) "" then "" else ":" ++ Prefix m ++ " ")
  ++ Command m ++ join_params (Params m).

Definition Encode (m : Message) : string * option EncodeErr :=
  let body := line_of m in
  if Nat.leb (String.length body + 2) MaxLineLength then (body ++ crlf, None)
  else (substring 0 (MaxLineLength - 2) body ++ crlf, Some EncTruncated).

(** The [writer] goroutine over the messages of the send channel, each with
    the socket behaviour of its write: the texts written to the socket. After
    the first failing [writeMessage] it only drains ([for range c.writeChan]). *)
Fixpoint writer (ms : list (Message * SockIO)) : list string :=
  match ms with
  | [] => []
  | (m, io) :: ms' =>
      let '(err, out) := writeMessage (Encode m) io in
      match err with
      | None => out :: writer ms'
      | Some _ => [out]
      end
  end.

(** ** The chat.postMessage handler ([App.postMessageHandler]) *)

Record PostMessagePayload := mkPayload {
  pm_channel : string;
  pm_text : string;
}.

(** An HTTP request: its method and its body ([None] when reading fails). *)
Record Request := mkRequest {
  method : string;
  reqBody : option string;
}.

(** [http.ResponseWriter]: the status written so far, and the body. *)
Record Response := mkResponse {
  rw_status : option Z;
  rw_body : string;
}.

Definition emptyResponse : Response := mkResponse None "".

(** [w.WriteHeader(code)]: only the first call has an effect. *)
Definition WriteHeader (w : Response) (code : Z) : Response :=
  match rw_status w with
  | Some _ => w
  | None => mkResponse (Some code) (rw_body w)
  end.

(** [w.Write(buf)]: writes the implicit 200 header first when none is set. *)
Definition RWrite (w : Response) (buf : string) : Response :=
  match rw_status w with
  | Some c => mkResponse (Some c) (rw_body w ++ buf)
  | None => mkResponse (Some 200%Z) (rw_body w ++ buf)
  end.

(** The status the client sees: 200 when the handler set none. *)
Definition final_status (w : Response) : Z :=
  match rw_status w with Some c => c | None => 200%Z end.

Definition dq : string := String (ascii_of_nat 34) "".

(** [json.Marshal(APIResponse{OK: ok})]. *)
Definition marshalAPIResponse (ok : bool) : string :=
  "{" ++ dq ++ "ok" ++ dq ++ ":" ++ (if ok then "true" else "false") ++ "}".

Section Handler.

(** [json.Unmarshal(buf, &p)] into a [PostMessagePayload]: [None] when it
    returns an error. *)
Variable Unmarshal : string -> option PostMessagePayload.

(** [postMessageHandler]: the messages passed to [client.Write] and the
    response written. *)
Definition postMessageHandler (r : Request) : list Message * Response :=
  if negb (String.eqb (method r) "POST") then
    ([], WriteHeader emptyResponse 400)
  else match reqBody r with
  | None => ([], WriteHeader emptyResponse 400)
  | Some buf =>
      match Unmarshal buf with
      | None => ([], WriteHeader emptyResponse 400)
      | Some p =>
          ([msg "PRIVMSG" [pm_channel p; pm_text p]],
           RWrite emptyResponse (marshalAPIResponse true))
      end
  end.

End Handler.

(** ** The lab bot: [status], [take], [release] *)

(** The globals [whohas] and [taken] (guarded by [mutex]). *)
Record Lab := mkLab {
  whohas : string;
  taken : bool;
}.

Definition initLab : Lab := mkLab "" false.

(** [formatUser]: the regexp [^(.+?)!] keeps the shortest non-empty prefix
    followed by a '!'; its [.] matches any character but a newline, so the
    prefix may hold no newline. [first_bang i s] is the index, counted from
    [i], of the first '!' of [s] at an index of at least 1, or [None] when a
    newline comes first. ('!' and newline are single bytes that never occur
    inside a multi-byte UTF-8 sequence, so scanning bytes finds the same
    index as the regexp scanning runes.) *)
Fixpoint first_bang (i : nat) (s : string) : option nat :=
  match s with
  | EmptyString => None
  | String ch s' =>
      if andb (Nat.ltb 0 i) (Ascii.eqb ch "!"%char) then Some i
      else if Ascii.eqb ch "010"%char then None
      else first_bang (S i) s'
  end.

Definition formatUser (user : string) : string :=
  match first_bang 0 user with
  | Some i => substring 0 i user
  | None => "BADUSERSTRING"
  end.

Definition status (s : Lab) (user : string) : Lab * string :=
  if taken s then (s, formatUser (whohas s) ++ " has the lab")
  else (s, "no one has claimed the lab. !take to take").

Definition take (s : Lab) (user : string) : Lab * string :=
  if taken s then
    if String.eqb user (whohas s) then (s, formatUser user ++ " already has the lab!")
    else (s, "Alas " ++ formatUser (whohas s) ++ " has already taken lab, go bug them")
  else (mkLab user true, formatUser user ++ " now has the lab, go forth and prosper").

Definition release (s : Lab) (user : string) : Lab * string :=
  if taken s then
    if String.eqb user (whohas s) then (mkLab "" false, "Release successful")
    else (s, "You cannot release when " ++ formatUser (whohas s) ++ " has the lab")
  else (s, "No one has taken the lab, alas, nothing to release").

(** [messageEvent]: the [switch text]; other texts leave the state alone and
    send no reply. *)
Definition messageEvent (s : Lab) (user text : string) : Lab * option string :=
  if String.eqb text "!status" then let '(s', r) := status s user in (s', Some r)
  else if String.eqb text "!take" then let '(s', r) := take s user in (s', Some r)
  else if String.eqb text "!release" then let '(s', r) := release s user in (s', Some r)
  else (s, None).

(** A run of message events [(user, text)], one after the other. *)
Fixpoint run_events (s : Lab) (evs : list (string * string)) : Lab :=
  match evs with
  | [] => s
  | (u, t) :: evs' => run_events (fst (messageEvent s u t)) evs'
  end.

(** A string of [n] copies of [ch]. *)
Fixpoint replicate (n : nat) (ch : ascii) : string :=
  match n with
  | 0 => ""
  | S n' => String ch (replicate n' ch)
  end.

(** A socket that accepts the whole of [buf]. *)
Definition okIO (buf : string) : SockIO := mkSockIO true (Some (String.length buf)) true.

(** ** The whole dispatcher loop of [main] (cmd/horatio/main.go) *)

(** The [for] loop of [main] over the messages received before
    [client.readChan] is closed and drained, then the shutdown after the
    loop: [close(client.writeChan)] and [client.conn.Close()] (what
    [client.Close()] does in the other variant). The events are those
    delivered, in order. *)
Fixpoint main_loop (c : Conn) (ms : list Message) : Outcome (Conn * list Event) :=
  match ms with
  | [] =>
      c' <- Close c ;;
      Done (c', [])
  | m :: ms' =>
      r <- main_step c m ;;
      r' <- main_loop (fst r) ms' ;;
      Done (fst r', (snd r ++ snd r')%list)
  end.

(** Reference behaviour of one dispatcher iteration, written from the
    branch structure of the loop for messages it does not panic on: the
    PONG it sends and the event it delivers. *)
Definition expected_pongs (m : Message) : list Message :=
  if String.eqb (Command m) "PING" then
    match Params m with p :: _ => [msg "PONG" [p]] | [] => [] end
  else [].

Definition expected_events (m : Message) : list Event :=
  if String.eqb (Command m) "PRIVMSG" then
    match Params m with
    | (String ch _ as p0) :: tx :: _ =>
        if Ascii.eqb ch "#"%char then [mkEvent p0 (Prefix m) tx] else []
    | _ => []
    end
  else [].

(** A message the loop handles without a panic: a PING has a parameter; a
    PRIVMSG has a non-empty first parameter, and a second one when the first
    starts with '#'. *)
Definition no_panic (m : Message) : Prop :=
  (Command m = "PING" -> Params m <> []) /\
  (Command m = "PRIVMSG" ->
     exists ch rest ps, Params m = String ch rest :: ps /\
       (ch = "#"%char -> ps <> [])).

(** ** Command line arguments of horatio ([getArgs], cmd/horatio/main.go) *)

Record Args := mkArgs {
  listenPort : Z;
  url : string;
  ircHost : string;
  ircPort : Z;
  nick : string;
  channel : string;
}.

(** [getArgs] after [flag.Parse()], on the parsed flag values: the checks in
    source order, each returning its error. *)
Definition getArgs (listenPort' : Z) (url' ircHost' : string) (ircPort' : Z)
  (nick' channel' : string) : Args + string :=
  if (listenPort' <=? 0)%Z then inr "listen port must be > 0"
  else if String.eqb url' "" then inr "you must provide a URL"
  else if String.eqb ircHost' "" then inr "you must provide an IRC host"
  else if (ircPort' <=? 0)%Z then inr "you must provide an IRC port"
  else if String.eqb nick' "" then inr "you must provide a nick"
  else if String.eqb channel' "" then inr "you must provide a channel"
  else inl (mkArgs listenPort' url' ircHost' ircPort' nick' channel').

(** ** The /event endpoint of yorick ([App.EventHandler], app.go) *)

#[local] Set Warnings "-register-all".

(** A value decoded by [encoding/json] into an [interface{}]. *)
Inductive JVal :=
| JStr (s : string)
| JNum
| JBool (b : bool)
| JNull
| JArr (vs : list JVal)
| JObj (kvs : list (string * JVal)).

(** A decoded [map[string]interface{}], one entry per key (a JSON [null]
    decodes to a nil map, which behaves as the empty one). *)
Definition JMap := list (string * JVal).

(** [v, ok := p[k]]. *)
Fixpoint lookup (k : string) (p : JMap) : option JVal :=
  match p with
  | [] => None
  | (k', v) :: p' => if String.eqb k k' then Some v else lookup k p'
  end.

Section EventAPI.

(** [json.Unmarshal(buf, &p)] into a [map[string]interface{}]; [None] when
    it returns an error. *)
Variable UnmarshalMap : string -> option JMap.

(** The JSON text [json.Marshal] produces for a string value. *)
Variable jsonString : string -> string.

(** [EventURLVerification]: echo the challenge as [{"challenge": ...}]. The
    replies posted to the Web API are the second component. *)
Definition EventURLVerification (w : Response) (p : JMap)
  : Response * list (string * string) :=
  match lookup "challenge" p with
  | Some (JStr s) =>
      (RWrite w ("{" ++ dq ++ "challenge" ++ dq ++ ":" ++ jsonString s ++ "}"), [])
  | _ => (WriteHeader w 400, [])
  end.

(** [EventMessageChannels]: ignore bot messages, otherwise reply "hi there"
    to the channel (in a goroutine, here as a posted reply). *)
Definition EventMessageChannels (w : Response) (event : JMap)
  : Response * list (string * string) :=
  let bot := match lookup "subtype" event with
             | Some (JStr st) => String.eqb st "bot_message"
             | _ => false
             end in
  if bot then (w, [])
  else match lookup "channel" event with
       | Some (JStr ch) => (w, [(ch, "hi there")])
       | _ => (WriteHeader w 400, [])
       end.

(** [EventEventCallback]. *)
Definition EventEventCallback (w : Response) (p : JMap)
  : Response * list (string * string) :=
  match lookup "event" p with
  | Some (JObj eventMap) =>
      match lookup "type" eventMap with
      | Some (JStr t) =>
          if String.eqb t "message" then EventMessageChannels w eventMap
          else (w, [])
      | _ => (WriteHeader w 400, [])
      end
  | _ => (WriteHeader w 400, [])
  end.

(** [EventHandler]. *)
Definition EventHandler (r : Request) : Response * list (string * string) :=
  let w := emptyResponse in
  if negb (String.eqb (method r) "POST") then (WriteHeader w 400, [])
  else match reqBody r with
  | None => (WriteHeader w 400, [])
  | Some buf =>
      match UnmarshalMap buf with
      | None => (WriteHeader w 400, [])
      | Some p =>
          match lookup "type" p with
          | Some (JStr t) =>
              if String.eqb t "url_verification" then EventURLVerification w p
              else if String.eqb t "event_callback" then EventEventCallback w p
              else (w, [])
          | _ => (WriteHeader w 400, [])
          end
      end
  end.

End EventAPI.

(** * Properties *)

(** ** Registration *)

Lemma Write_ok (c : Conn) (m : Message) :
  wchan_closed c = false -> length (wchan c) < chanCap ->
  Write c m = Done (set_wchan c (wchan c ++ [m]) false).
Proof.
  intros Hcl Hlen. unfold Write. rewrite Hcl.
  destruct (Nat.leb_spec chanCap (length (wchan c))); [lia | reflexivity].
Qed.

Lemma init_wait_notice (n : Message) (sels : list Sel) :
  Command n = "NOTICE" -> init_wait (SelRecv n :: sels) = init_wait sels.
Proof. intros H. simpl. rewrite H. reflexivity. Qed.

Lemma init_wait_notices (ns : list Message) (sels : list Sel) :
  Forall (fun n => Command n = "NOTICE") ns ->
  init_wait (map SelRecv ns ++ sels) = init_wait sels.
Proof.
  induction 1 as [|n ns Hn _ IH]; [reflexivity|].
  simpl map; rewrite <- app_comm_cons, init_wait_notice by exact Hn.
  exact IH.
Qed.

Lemma init_fresh (nick channel : string) (sels : list Sel) :
  init freshConn nick channel sels =
  bindO (init_wait sels) (fun r => Done (fst r, snd r, registeredConn nick channel)).
Proof. reflexivity. Qed.

(** C1: after any run of NOTICE messages, a first "001" reply makes [Open]
    ([NewIRCClient]) succeed; a NOTICE is skipped by the wait loop; any other
    first message makes [Open] fail with [ErrUnexpected] at once, whatever
    follows it (a later timeout included), the events after it unconsumed.
    The client state is the registered one (its socket closed on a failure),
    whatever the outcome [gone] of the race with the reader. *)
Theorem open_handshake (nick channel : string) (ns : list Message)
  (m : Message) (rest : list Sel) (gone : bool) :
  Forall (fun n => Command n = "NOTICE") ns ->
  (forall n sels, Command n = "NOTICE" ->
     init_wait (SelRecv n :: sels) = init_wait sels) /\
  (Command m = "001" ->
     init_wait (map SelRecv ns ++ SelRecv m :: rest) = Done (None, rest) /\
     NewIRCClient true nick channel (map SelRecv ns ++ SelRecv m :: rest) gone
     = Done (OpenOk (reader_race gone (registeredConn nick channel)))) /\
  (Command m <> "001" -> Command m <> "NOTICE" ->
     init_wait (map SelRecv ns ++ SelRecv m :: rest)
     = Done (Some (ErrUnexpected m), rest) /\
     NewIRCClient true nick channel (map SelRecv ns ++ SelRecv m :: rest) gone
     = Done (OpenErr (ErrUnexpected m)
               (set_sock (reader_race gone (registeredConn nick channel)) false))).
Proof.
  intros Hns.
  assert (Hw : forall r, init_wait (SelRecv m :: rest) = Done r ->
            init_wait (map SelRecv ns ++ SelRecv m :: rest) = Done r)
    by (intros r Hr; rewrite init_wait_notices by exact Hns; exact Hr).
  split; [exact init_wait_notice|]. split.
  - intros H001.
    assert (E : init_wait (map SelRecv ns ++ SelRecv m :: rest) = Done (None, rest))
      by (apply Hw; simpl; rewrite H001; reflexivity).
    split; [exact E|].
    unfold NewIRCClient; simpl negb; cbv iota.
    rewrite init_fresh, E. reflexivity.
  - intros H001 Hnot.
    assert (E : init_wait (map SelRecv ns ++ SelRecv m :: rest)
                = Done (Some (ErrUnexpected m), rest)).
    { apply Hw; simpl.
      apply String.eqb_neq in H001, Hnot. rewrite H001, Hnot. reflexivity. }
    split; [exact E|].
    unfold NewIRCClient; simpl negb; cbv iota.
    rewrite init_fresh, E. reflexivity.
Qed.

Lemma open_handshake_witness :
  Forall (fun n => Command n = "NOTICE") [mkMessage "srv" "NOTICE" ["*"; "hi"]] /\
  NewIRCClient true "bot" "#test"
    (map SelRecv [mkMessage "srv" "NOTICE" ["*"; "hi"]]
       ++ SelRecv (mkMessage "srv" "001" ["bot"; "Welcome"]) :: [SelTimeout]) false
  = Done (OpenOk (registeredConn "bot" "#test")).
Proof.
  assert (H : Forall (fun n => Command n = "NOTICE") [mkMessage "srv" "NOTICE" ["*"; "hi"]])
    by (repeat constructor).
  split; [exact H|].
  apply (open_handshake "bot" "#test" _ (mkMessage "srv" "001" ["bot"; "Welcome"])
           [SelTimeout] false H).
  reflexivity.
Defined.

(** C6: [init] on a client whose send channel is open and has room for three
    more messages enqueues NICK, USER and JOIN, in that order, and only then
    waits for the server, whatever the server sends. *)
Theorem init_enqueues_registration (c : Conn) (nick channel : string)
  (sels : list Sel) :
  wchan_closed c = false ->
  length (wchan c) + 3 <= chanCap ->
  init c nick channel sels =
  bindO (init_wait sels)
    (fun r => Done (fst r, snd r,
       set_wchan c (wchan c ++ [nickMsg nick; userMsg nick; joinMsg channel]) false)).
Proof.
  intros Hcl Hlen. unfold init.
  rewrite Write_ok by (auto; lia). simpl bindO.
  rewrite Write_ok by (simpl; auto; rewrite length_app; simpl; lia). simpl bindO.
  rewrite Write_ok by (simpl; auto; rewrite !length_app; simpl; lia). simpl bindO.
  simpl wchan. rewrite <- !app_assoc. reflexivity.
Qed.

Lemma init_enqueues_registration_witness :
  wchan_closed freshConn = false /\
  length (wchan freshConn) + 3 <= chanCap /\
  init freshConn "bot" "#test" [SelTimeout] =
  Done (Some ErrTimeout, [],
        set_wchan freshConn
          ([] ++ [nickMsg "bot"; userMsg "bot"; joinMsg "#test"]) false).
Proof.
  split; [reflexivity|]. split; [vm_compute; lia|].
  rewrite (init_enqueues_registration freshConn "bot" "#test" [SelTimeout]);
    [reflexivity | reflexivity | vm_compute; lia].
Defined.

(** ** Keep-alive *)

(** C2: for a PING whose first parameter is [p], the dispatcher enqueues
    exactly one [PONG p] on the (open, not full) send channel and delivers no
    event. *)
Theorem ping_pong (c : Conn) (pre p : string) (ps : list string) :
  wchan_closed c = false ->
  length (wchan c) < chanCap ->
  main_step c (mkMessage pre "PING" (p :: ps))
  = Done (set_wchan c (wchan c ++ [msg "PONG" [p]]) false, []).
Proof.
  intros Hcl Hlen. unfold main_step; simpl Command; simpl Params; cbv iota beta.
  simpl index; simpl bindO.
  rewrite Write_ok by assumption. reflexivity.
Qed.

Lemma ping_pong_witness :
  main_step freshConn (mkMessage "irc.example" "PING" ["abc"])
  = Done (set_wchan freshConn [msg "PONG" ["abc"]] false, []).
Proof.
  apply (ping_pong freshConn "irc.example" "abc" []); [reflexivity | vm_compute; lia].
Defined.

(** ** Writing an overlong message *)

(** C3, as stated, fails: a message whose line is longer than 512 bytes is
    cut by the encoder, which reports [ErrTruncated]; [writeMessage] writes
    the cut line and returns nil, and the writer goes on as after any
    successful write. *)
Lemma writeMessage_truncates_silently :
  let m := msg "PRIVMSG" ["#test"; replicate 600 "a"%char] in
  let enc := Encode m in
  MaxLineLength < String.length (line_of m) + 2 /\
  snd enc = Some EncTruncated /\
  writeMessage enc (okIO (fst enc)) = (None, fst enc) /\
  fst enc <> line_of m ++ crlf /\
  writer [(m, okIO (fst enc)); (msg "PRIVMSG" ["#test"; "hi"], okIO ("PRIVMSG #test hi" ++ crlf))]
  = [fst enc; "PRIVMSG #test hi" ++ crlf].
Proof.
  vm_compute. repeat split; try reflexivity; try lia. discriminate.
Qed.

(** C3 (amended): [writeMessage] handles the encoder's [ErrTruncated]
    exactly like a clean encoding: the returned (cut) text is written and,
    when the socket takes it all and flushes, nil is returned. Any other
    encoding error fails before anything is written. *)
Theorem writeMessage_truncation (buf : string) (io : SockIO) :
  writeMessage (buf, Some EncTruncated) io = writeMessage (buf, None) io /\
  writeMessage (buf, Some EncOther) io = (Some WErrEncode, "") /\
  (deadline_ok io = true -> write_res io = Some (String.length buf) ->
   flush_ok io = true -> writeMessage (buf, Some EncTruncated) io = (None, buf)).
Proof.
  split; [reflexivity|]. split; [reflexivity|].
  intros Hd Hw Hf. unfold writeMessage.
  rewrite Hd, Hw, Hf, Nat.eqb_refl. reflexivity.
Qed.

Lemma writeMessage_truncation_witness :
  writeMessage (fst (Encode (msg "PRIVMSG" ["#test"; replicate 600 "a"%char])),
                Some EncTruncated)
    (okIO (fst (Encode (msg "PRIVMSG" ["#test"; replicate 600 "a"%char]))))
  = (None, fst (Encode (msg "PRIVMSG" ["#test"; replicate 600 "a"%char]))).
Proof.
  apply (writeMessage_truncation
           (fst (Encode (msg "PRIVMSG" ["#test"; replicate 600 "a"%char])))
           (okIO (fst (Encode (msg "PRIVMSG" ["#test"; replicate 600 "a"%char])))));
    reflexivity.
Defined.

(** ** Close *)

(** C4, as stated, fails: a second [Close] runs [close] on the already
    closed send channel, which panics. *)
Lemma close_twice_panics :
  bindO (Close (registeredConn "bot" "#test")) Close = Panicked.
Proof. reflexivity. Qed.

(** C4 (amended): the first [Close] of a client whose send channel is open
    returns normally with the send channel and the socket closed; after it,
    another [Close] panics, and so does a [Write] (Send). *)
Theorem Close_once (c : Conn) :
  wchan_closed c = false ->
  Close c = Done (set_sock (set_wchan c (wchan c) true) false) /\
  let c' := set_sock (set_wchan c (wchan c) true) false in
  wchan_closed c' = true /\ sock_open c' = false /\ wchan c' = wchan c /\
  Close c' = Panicked /\ (forall m, Write c' m = Panicked).
Proof.
  intros Hcl. unfold Close at 1. rewrite Hcl.
  split; [reflexivity|]. simpl.
  repeat split; reflexivity.
Qed.

Lemma Close_once_witness :
  wchan_closed (registeredConn "bot" "#test") = false /\
  Close (registeredConn "bot" "#test")
  = Done (set_sock (set_wchan (registeredConn "bot" "#test")
                      (wchan (registeredConn "bot" "#test")) true) false).
Proof.
  split; [reflexivity|].
  apply (Close_once (registeredConn "bot" "#test")). reflexivity.
Defined.

(** ** A failed Open *)

(** C5, as stated, fails: when registration times out, [NewIRCClient]
    closes the socket and returns with the send channel open and the writer
    goroutine (ranging over it) still running, however the race with the
    reader goes. *)
Lemma failed_open_leaves_loops :
  match NewIRCClient true "bot" "#test" [SelTimeout] false,
        NewIRCClient true "bot" "#test" [SelTimeout] true with
  | Done (OpenErr ErrTimeout c1), Done (OpenErr ErrTimeout c2) =>
      sock_open c1 = false /\ wchan_closed c1 = false /\ writer_running c1 = true /\
      sock_open c2 = false /\ wchan_closed c2 = false /\ writer_running c2 = true
  | _, _ => False
  end.
Proof. vm_compute. repeat split. Qed.

(** C5 (amended): a failed dial starts nothing; when [init] fails, Open
    closes the socket before returning, but neither stops nor waits for the
    loops: the send channel is left open and the writer is still running
    when Open returns; the reader has returned when the failure was the read
    channel closing, and otherwise may or may not have, as the race goes. *)
Theorem open_failure_cleanup (nick channel : string) (sels : list Sel)
  (gone : bool) (e : InitError) (c : Conn) :
  (NewIRCClient false nick channel sels gone
   = Done (OpenErr ErrDial (mkConn false [] false [] false false false))) /\
  (NewIRCClient true nick channel sels gone = Done (OpenErr e c) ->
   sock_open c = false /\ wchan_closed c = false /\ writer_running c = true /\
   (e = ErrReadClosed -> reader_running c = false) /\
   (e <> ErrReadClosed -> reader_running c = negb gone)).
Proof.
  split; [reflexivity|].
  unfold NewIRCClient; simpl negb; cbv iota.
  rewrite init_fresh.
  destruct (init_wait sels) as [[r rest]| |]; simpl; try discriminate.
  destruct r as [e'|]; [|discriminate].
  intros H; inversion H; subst.
  destruct e, gone; simpl; repeat split; try reflexivity; intros Hne;
    try discriminate; exfalso; apply Hne; reflexivity.
Qed.

Lemma open_failure_cleanup_witness :
  NewIRCClient true "bot" "#test" [SelTimeout] false
  = Done (OpenErr ErrTimeout (set_sock (registeredConn "bot" "#test") false)) /\
  NewIRCClient true "bot" "#test" [SelTimeout] true
  = Done (OpenErr ErrTimeout
            (set_sock (reader_exited (registeredConn "bot" "#test")) false)) /\
  reader_running (set_sock (registeredConn "bot" "#test") false) = true /\
  reader_running (set_sock (reader_exited (registeredConn "bot" "#test")) false) = false /\
  writer_running (set_sock (reader_exited (registeredConn "bot" "#test")) false) = true.
Proof.
  assert (H0 : NewIRCClient true "bot" "#test" [SelTimeout] false
               = Done (OpenErr ErrTimeout (set_sock (registeredConn "bot" "#test") false)))
    by reflexivity.
  assert (H1 : NewIRCClient true "bot" "#test" [SelTimeout] true
               = Done (OpenErr ErrTimeout
                         (set_sock (reader_exited (registeredConn "bot" "#test")) false)))
    by reflexivity.
  assert (Hne : ErrTimeout <> ErrReadClosed) by discriminate.
  destruct (proj2 (open_failure_cleanup "bot" "#test" [SelTimeout] false ErrTimeout _) H0)
    as [_ [_ [_ [_ R0]]]].
  destruct (proj2 (open_failure_cleanup "bot" "#test" [SelTimeout] true ErrTimeout _) H1)
    as [_ [_ [W1 [_ R1]]]].
  split; [exact H0|]. split; [exact H1|].
  split; [exact (R0 Hne)|]. split; [exact (R1 Hne)|]. exact W1.
Defined.

(** ** The read loop *)

Lemma set_readq_twice (c : Conn) q1 q2 b1 b2 r1 r2 :
  set_readq (set_readq c q1 b1 r1) q2 b2 r2 = set_readq c q2 b2 r2.
Proof. destruct c; reflexivity. Qed.

Lemma set_readq_same (c : Conn) :
  set_readq c (readq c) (readq_closed c) (reader_running c) = c.
Proof. destruct c; reflexivity. Qed.

Lemma reader_prefix (pre rest : list ReadRes) (ms : list Message) (c : Conn) :
  Forall2 (fun x m => readMessage x = inl m) pre ms ->
  readq_closed c = false ->
  length (readq c) + length ms <= chanCap ->
  reader (pre ++ rest) c
  = reader rest (set_readq c (readq c ++ ms) false (reader_running c)).
Proof.
  intros HF. revert c.
  induction HF as [|x m pre' ms' Hx _ IH]; intros c Hcl Hlen.
  - simpl. rewrite app_nil_r, <- Hcl, set_readq_same. reflexivity.
  - simpl. rewrite Hx. unfold pushRead. rewrite Hcl.
    simpl length in Hlen.
    destruct (Nat.leb_spec chanCap (length (readq c))) as [Hf|_]; [lia|].
    simpl bindO. rewrite IH; simpl.
    + rewrite set_readq_twice, <- app_assoc. reflexivity.
    + reflexivity.
    + rewrite length_app; simpl; lia.
Qed.

Lemma Reads_drain (q : list Message) (k : nat) (c : Conn) :
  readq c = q -> readq_closed c = true ->
  Reads (length q + k) c
  = Done (map (fun m => (m, true)) q ++ repeat (zeroMessage, false) k)%list.
Proof.
  revert c. induction q as [|m q IH]; intros c Hq Hcl.
  - simpl. induction k as [|k IHk]; [reflexivity|].
    simpl. unfold Read. rewrite Hq, Hcl. simpl. rewrite IHk. reflexivity.
  - simpl. unfold Read. rewrite Hq. simpl.
    rewrite IH by (simpl; auto). reflexivity.
Qed.

(** C8: a line that [ParseMessage] reports as truncated is not an error for
    [readMessage], which returns the parsed message; a read error or any
    other parse error is. Once [reader] meets such an error after lines
    [pre] that parsed to [ms], it has pushed exactly [ms], closed the read
    channel and returned; [Read] then yields every queued message with
    [ok = true], and [ok = false] on every call after that. *)
Theorem reader_end_of_stream (pre : list ReadRes) (r : ReadRes)
  (post : list ReadRes) (ms : list Message) (c : Conn) :
  (forall m, readMessage (RdLine m (Some ErrTruncated)) = inl m /\
             readMessage (RdLine m (Some ErrParseOther)) = inr tt) /\
  readMessage RdErr = inr tt /\
  (Forall2 (fun x m => readMessage x = inl m) pre ms ->
   readMessage r = inr tt ->
   readq_closed c = false ->
   length (readq c) + length ms <= chanCap ->
   reader (pre ++ r :: post) c
   = Done (set_readq c (readq c ++ ms) true false) /\
   (forall k, Reads (length (readq c ++ ms) + k) (set_readq c (readq c ++ ms) true false)
     = Done (map (fun m => (m, true)) (readq c ++ ms) ++ repeat (zeroMessage, false) k)%list)).
Proof.
  split; [intros m; split; reflexivity|]. split; [reflexivity|].
  intros HF Hr Hcl Hlen. split.
  - rewrite (reader_prefix pre (r :: post) ms c HF Hcl Hlen).
    simpl. rewrite Hr. simpl. rewrite set_readq_twice. reflexivity.
  - intros k. apply Reads_drain; reflexivity.
Qed.

Lemma reader_end_of_stream_witness :
  reader [RdLine (mkMessage "srv" "NOTICE" ["*"; "hi"]) (Some ErrTruncated); RdErr;
          RdLine (msg "PING" ["x"]) None] freshConn
  = Done (set_readq freshConn [mkMessage "srv" "NOTICE" ["*"; "hi"]] true false).
Proof.
  destruct (reader_end_of_stream
              [RdLine (mkMessage "srv" "NOTICE" ["*"; "hi"]) (Some ErrTruncated)]
              RdErr [RdLine (msg "PING" ["x"]) None]
              [mkMessage "srv" "NOTICE" ["*"; "hi"]] freshConn) as [_ [_ H]].
  refine (proj1 (H _ _ _ _)).
  - constructor; [reflexivity | constructor].
  - reflexivity.
  - reflexivity.
  - vm_compute; lia.
Defined.

(** ** The chat.postMessage handler *)

(** C7: a POST whose body is read and decodes to [{channel, text}] leads to
    exactly one [Write] of [PRIVMSG channel text] and a 200 response with
    body [{"ok":true}]; a non-POST request, a body that cannot be read, or
    one that does not decode leads to a 400 response and no [Write]. *)
Theorem postMessageHandler_spec
  (Unmarshal : string -> option PostMessagePayload) (r : Request) :
  marshalAPIResponse true = "{" ++ dq ++ "ok" ++ dq ++ ":true}" /\
  (forall buf p, method r = "POST" -> reqBody r = Some buf -> Unmarshal buf = Some p ->
     postMessageHandler Unmarshal r
     = ([msg "PRIVMSG" [pm_channel p; pm_text p]],
        mkResponse (Some 200%Z) (marshalAPIResponse true))) /\
  ((method r <> "POST" \/ reqBody r = None \/
    (exists buf, reqBody r = Some buf /\ Unmarshal buf = None)) ->
   fst (postMessageHandler Unmarshal r) = [] /\
   final_status (snd (postMessageHandler Unmarshal r)) = 400%Z).
Proof.
  split; [reflexivity|]. split.
  - intros buf p Hm Hb Hu. unfold postMessageHandler.
    rewrite Hm, Hb, Hu. reflexivity.
  - intros H. unfold postMessageHandler.
    destruct (String.eqb_spec (method r) "POST") as [Hm|Hm]; [|split; reflexivity].
    destruct H as [H|[H|[buf [Hb Hu]]]]; [contradiction|rewrite H; split; reflexivity|].
    rewrite Hb, Hu. split; reflexivity.
Qed.

Lemma postMessageHandler_spec_witness :
  postMessageHandler (fun _ => Some (mkPayload "#general" "hi"))
    (mkRequest "POST" (Some "body"))
  = ([msg "PRIVMSG" ["#general"; "hi"]],
     mkResponse (Some 200%Z) (marshalAPIResponse true)) /\
  final_status (snd (postMessageHandler (fun _ => None) (mkRequest "POST" (Some "{")))) = 400%Z.
Proof.
  split.
  - apply (proj1 (proj2 (postMessageHandler_spec (fun _ => Some (mkPayload "#general" "hi"))
             (mkRequest "POST" (Some "body")))) "body" (mkPayload "#general" "hi"));
      reflexivity.
  - apply (proj2 (proj2 (postMessageHandler_spec (fun _ => None)
             (mkRequest "POST" (Some "{"))))).
    right. right. exists "{". split; reflexivity.
Defined.

(** ** Parameter indexing in the dispatcher *)

(** C9, as stated, fails: a PRIVMSG with a single parameter that does not
    start with '#' is discarded by the '#' test before [dispatchEvent] reads
    [Params[1]]; no panic. *)
Lemma privmsg_one_param_discarded :
  main_step (registeredConn "bot" "#test") (mkMessage "alice!u@h" "PRIVMSG" ["bob"])
  = Done (registeredConn "bot" "#test", []).
Proof. reflexivity. Qed.

(** C9 (amended): the dispatcher panics on a PING with no parameter, a
    PRIVMSG with no parameter, a PRIVMSG whose first parameter is empty, and
    a PRIVMSG whose only parameter starts with '#'; a PRIVMSG whose only
    parameter is non-empty and does not start with '#' is discarded. *)
Theorem main_step_index_panics (c : Conn) (pre : string) :
  main_step c (mkMessage pre "PING" []) = Panicked /\
  main_step c (mkMessage pre "PRIVMSG" []) = Panicked /\
  (forall ps, main_step c (mkMessage pre "PRIVMSG" ("" :: ps)) = Panicked) /\
  (forall rest, main_step c (mkMessage pre "PRIVMSG" [String "#" rest]) = Panicked) /\
  (forall ch rest, ch <> "#"%char ->
     main_step c (mkMessage pre "PRIVMSG" [String ch rest]) = Done (c, [])).
Proof.
  repeat split.
  intros ch rest Hch. unfold main_step; simpl.
  destruct (Ascii.eqb_spec ch "#"%char) as [E|_]; [contradiction|reflexivity].
Qed.

Lemma main_step_index_panics_witness :
  main_step freshConn (mkMessage "alice!u@h" "PRIVMSG" [String "b" "ob"])
  = Done (freshConn, []).
Proof.
  apply (main_step_index_panics freshConn "alice!u@h").
  discriminate.
Defined.

(** ** The lab claim/release state *)

(** C10, as stated, fails: [!take] from a user given as the empty string
    sets [taken] while [whohas] stays empty. *)
Lemma lab_take_empty_user :
  run_events initLab [("", "!take")] = mkLab "" true.
Proof. reflexivity. Qed.

Lemma messageEvent_state (s : Lab) (u t : string) :
  fst (messageEvent s u t) = s \/
  (t = "!take" /\ taken s = false /\ fst (messageEvent s u t) = mkLab u true) \/
  (t = "!release" /\ taken s = true /\ u = whohas s /\
   fst (messageEvent s u t) = mkLab "" false).
Proof.
  unfold messageEvent.
  destruct (String.eqb_spec t "!status") as [->|H1].
  { left. unfold status. destruct (taken s); reflexivity. }
  destruct (String.eqb_spec t "!take") as [->|H2].
  { unfold take. destruct (taken s) eqn:Ht.
    - left. destruct (String.eqb u (whohas s)); reflexivity.
    - right; left. auto. }
  destruct (String.eqb_spec t "!release") as [->|H3]; [|left; reflexivity].
  unfold release. destruct (taken s) eqn:Ht; [|left; reflexivity].
  destruct (String.eqb_spec u (whohas s)) as [Hu|Hu]; [|left; reflexivity].
  right; right. auto.
Qed.

Lemma run_events_weak (s : Lab) (evs : list (string * string)) :
  (taken s = false -> whohas s = "") ->
  taken (run_events s evs) = false -> whohas (run_events s evs) = "".
Proof.
  revert s. induction evs as [|[u t] evs IH]; intros s Hs; [exact Hs|].
  simpl. apply IH.
  destruct (messageEvent_state s u t) as [->|[[_ [_ ->]]|[_ [_ [_ ->]]]]];
    simpl; auto; discriminate.
Qed.

Lemma run_events_strong (s : Lab) (evs : list (string * string)) :
  Forall (fun e => fst e <> "") evs ->
  taken s = negb (String.eqb (whohas s) "") ->
  taken (run_events s evs) = negb (String.eqb (whohas (run_events s evs)) "").
Proof.
  intros HF. revert s. induction HF as [|[u t] evs Hu _ IH]; intros s Hs; [exact Hs|].
  simpl. apply IH. simpl in Hu.
  destruct (messageEvent_state s u t) as [->|[[_ [_ ->]]|[_ [_ [_ ->]]]]];
    simpl; auto.
  destruct (String.eqb_spec u "") as [E|_]; [contradiction|reflexivity].
Qed.

(** C10 (amended): [status] changes nothing; an event changes the state
    only by a [!take] while not taken (holder := user, taken := true) or a
    [!release] by the holder while taken (holder := "", taken := false).
    From the initial state, [whohas] is non-empty only when [taken] holds,
    and [taken = (whohas <> "")] holds after any run in which no event comes
    from the empty user string. *)
Theorem lab_invariant (evs : list (string * string)) :
  (forall s u, fst (status s u) = s) /\
  (forall s u t, fst (messageEvent s u t) = s \/
     (t = "!take" /\ taken s = false /\ fst (messageEvent s u t) = mkLab u true) \/
     (t = "!release" /\ taken s = true /\ u = whohas s /\
      fst (messageEvent s u t) = mkLab "" false)) /\
  (taken (run_events initLab evs) = false -> whohas (run_events initLab evs) = "") /\
  (Forall (fun e => fst e <> "") evs ->
   taken (run_events initLab evs) = negb (String.eqb (whohas (run_events initLab evs)) "")).
Proof.
  split; [intros s u; unfold status; destruct (taken s); reflexivity|].
  split; [exact messageEvent_state|].
  split; [apply run_events_weak; reflexivity|].
  intros HF. apply run_events_strong; [exact HF | reflexivity].
Qed.

Lemma lab_invariant_witness :
  Forall (fun e : string * string => fst e <> "")
    [("alice!u@h", "!take"); ("bob!u@h", "!release")] /\
  taken (run_events initLab [("alice!u@h", "!take"); ("bob!u@h", "!release")])
  = negb (String.eqb
            (whohas (run_events initLab [("alice!u@h", "!take"); ("bob!u@h", "!release")]))
            "").
Proof.
  assert (HF : Forall (fun e : string * string => fst e <> "")
                 [("alice!u@h", "!take"); ("bob!u@h", "!release")])
    by (repeat constructor; simpl; discriminate).
  split; [exact HF|].
  exact (proj2 (proj2 (proj2 (lab_invariant
           [("alice!u@h", "!take"); ("bob!u@h", "!release")]))) HF).
Defined.

(** * Further properties of the code *)

(** ** [formatUser] *)

Lemma first_bang_app (n r : string) (i : nat) :
  (forall k, String.get k n <> Some "!"%char) ->
  (forall k, String.get k n <> Some "010"%char) ->
  0 < i + String.length n ->
  first_bang i (n ++ String "!" r) = Some (i + String.length n).
Proof.
  revert i. induction n as [|ch n IH]; intros i Hn Hl Hpos.
  - simpl in *. rewrite Nat.add_0_r in *.
    destruct (Nat.ltb_spec 0 i); [reflexivity | lia].
  - simpl. destruct (Ascii.eqb_spec ch "!"%char) as [E|_].
    + exfalso. apply (Hn 0). simpl. rewrite E. reflexivity.
    + rewrite andb_false_r. destruct (Ascii.eqb_spec ch "010"%char) as [E|_].
      * exfalso. apply (Hl 0). simpl. rewrite E. reflexivity.
      * rewrite IH.
        -- f_equal. simpl. lia.
        -- intros k. exact (Hn (S k)).
        -- intros k. exact (Hl (S k)).
        -- simpl in Hpos |- *. lia.
Qed.

Lemma substring_app_prefix (n s : string) :
  substring 0 (String.length n) (n ++ s) = n.
Proof.
  induction n as [|ch n IH]; simpl.
  - destruct s; reflexivity.
  - rewrite IH. reflexivity.
Qed.

Lemma first_bang_none (u : string) (i : nat) :
  (forall k, String.get k u <> Some "!"%char) -> first_bang i u = None.
Proof.
  revert i. induction u as [|ch u IH]; intros i Hu; [reflexivity|].
  simpl. destruct (Ascii.eqb_spec ch "!"%char) as [E|_].
  - exfalso. apply (Hu 0). simpl. rewrite E. reflexivity.
  - rewrite andb_false_r. destruct (Ascii.eqb ch "010"%char); [reflexivity|].
    apply IH. intros k. exact (Hu (S k)).
Qed.

(** A newline before the first '!' leaves the regexp no match. *)
Lemma first_bang_newline (n r : string) (i : nat) :
  (forall k, String.get k n <> Some "!"%char) ->
  first_bang i (n ++ String "010" r) = None.
Proof.
  revert i. induction n as [|ch n IH]; intros i Hn; simpl.
  - rewrite andb_false_r. reflexivity.
  - destruct (Ascii.eqb_spec ch "!"%char) as [E|_].
    + exfalso. apply (Hn 0). simpl. rewrite E. reflexivity.
    + rewrite andb_false_r. destruct (Ascii.eqb ch "010"%char); [reflexivity|].
      apply IH. intros k. exact (Hn (S k)).
Qed.

(** [formatUser] of an IRC prefix [nick!user@host] with a non-empty nick
    free of '!' and of newlines is the nick, so [status] on a lab held by
    that prefix names the nick; a string with no '!', or with a newline
    before its first '!', gives "BADUSERSTRING". *)
Theorem formatUser_nick (n r : string) :
  (n <> "" -> (forall k, String.get k n <> Some "!"%char) ->
   (forall k, String.get k n <> Some "010"%char) ->
   formatUser (n ++ String "!" r) = n /\
   snd (status (mkLab (n ++ String "!" r) true) "") = n ++ " has the lab") /\
  ((forall k, String.get k r <> Some "!"%char) -> formatUser r = "BADUSERSTRING") /\
  ((forall k, String.get k n <> Some "!"%char) ->
   formatUser (n ++ String "010" r) = "BADUSERSTRING").
Proof.
  split; [|split].
  - intros Hne Hn Hl.
    assert (F : formatUser (n ++ String "!" r) = n).
    { unfold formatUser. rewrite first_bang_app; [| exact Hn | exact Hl |].
      - simpl. apply substring_app_prefix.
      - destruct n; [contradiction | simpl; lia]. }
    split; [exact F|]. simpl. rewrite F. reflexivity.
  - intros Hr. unfold formatUser. rewrite first_bang_none by exact Hr. reflexivity.
  - intros Hn. unfold formatUser. rewrite first_bang_newline by exact Hn. reflexivity.
Qed.

Lemma formatUser_nick_witness :
  formatUser ("alice" ++ String "!" "u@host") = "alice" /\
  formatUser ("a" ++ String "010" "b!c") = "BADUSERSTRING".
Proof.
  split.
  - apply (formatUser_nick "alice" "u@host").
    + discriminate.
    + intros k. do 5 (destruct k as [|k]; [simpl; discriminate|]). simpl.
      destruct k; discriminate.
    + intros k. do 5 (destruct k as [|k]; [simpl; discriminate|]). simpl.
      destruct k; discriminate.
  - apply (formatUser_nick "a" "b!c").
    intros k. destruct k as [|k]; [simpl; discriminate|]. simpl.
    destruct k; discriminate.
Defined.

(** ** The lab: release after take, and exclusivity *)

(** From a free lab, [!take] then [!release] by the same user string (the
    empty one included) brings the lab back to the initial state, replying
    "Release successful". *)
Theorem take_release_roundtrip (s : Lab) (u : string) :
  taken s = false ->
  release (fst (take s u)) u = (initLab, "Release successful").
Proof.
  intros H. unfold take. rewrite H. simpl.
  unfold release. simpl. rewrite String.eqb_refl. reflexivity.
Qed.

Lemma take_release_roundtrip_witness :
  release (fst (take initLab "alice!u@h")) "alice!u@h" = (initLab, "Release successful").
Proof. apply take_release_roundtrip. reflexivity. Defined.

(** While the lab is taken, no run of message events from users other than
    the holder changes the state: nobody else can take or release it. *)
Theorem lab_exclusive (s : Lab) (evs : list (string * string)) :
  taken s = true ->
  Forall (fun e => fst e <> whohas s) evs ->
  run_events s evs = s.
Proof.
  intros Ht HF. induction HF as [|[u t] evs Hu _ IH]; [reflexivity|].
  simpl in Hu |- *.
  destruct (messageEvent_state s u t) as [->|[[_ [Hf _]]|[_ [_ [Heq _]]]]].
  - exact IH.
  - rewrite Ht in Hf. discriminate.
  - contradiction.
Qed.

Lemma lab_exclusive_witness :
  run_events (mkLab "alice!u@h" true) [("bob!u@h", "!release"); ("bob!u@h", "!take")]
  = mkLab "alice!u@h" true.
Proof.
  apply lab_exclusive; [reflexivity|].
  repeat constructor; simpl; discriminate.
Defined.

(** ** [writeMessage] and [writer] *)

(** [writeMessage] returns nil exactly when the encoding error is nil or
    [ErrTruncated], the write deadline is set, the socket accepts all of the
    text ([sz == len(buf)]) and the flush succeeds; on an encoding error
    other than [ErrTruncated] or a deadline error nothing reaches the
    socket. *)
Theorem writeMessage_success_iff (buf : string) (e : option EncodeErr) (io : SockIO) :
  (fst (writeMessage (buf, e) io) = None <->
   e <> Some EncOther /\ deadline_ok io = true /\
   write_res io = Some (String.length buf) /\ flush_ok io = true) /\
  ((e = Some EncOther \/ deadline_ok io = false) -> snd (writeMessage (buf, e) io) = "").
Proof.
  split.
  - unfold writeMessage. split.
    + destruct e as [[|]|]; simpl; try discriminate;
      destruct (deadline_ok io); simpl; try discriminate;
      destruct (write_res io) as [sz|]; simpl; try discriminate;
      destruct (Nat.eqb_spec sz (String.length buf)); simpl; try discriminate;
      destruct (flush_ok io); simpl; try discriminate;
      intros _; subst; repeat split; auto; discriminate.
    + intros [He [Hd [Hw Hf]]].
      destruct e as [[|]|]; [| contradiction |];
        rewrite Hd, Hw, Nat.eqb_refl, Hf; reflexivity.
  - intros [->|Hd]; [reflexivity|].
    unfold writeMessage. destruct e as [[|]|]; rewrite ?Hd; reflexivity.
Qed.

Lemma writeMessage_success_iff_witness :
  snd (writeMessage ("PING x", Some EncOther) (okIO "PING x")) = "".
Proof. apply writeMessage_success_iff. left. reflexivity. Defined.

(** A socket write that succeeds for the encoding of [m]. *)
Definition good_write (p : Message * SockIO) : Prop :=
  fst (writeMessage (Encode (fst p)) (snd p)) = None.

(** The [writer] goroutine hands the socket the encodings of the messages in
    the order they were queued; after the first failed [writeMessage] it
    writes nothing more (it only drains the channel). *)
Theorem writer_order (pre : list (Message * SockIO)) (m : Message) (io : SockIO)
  (post : list (Message * SockIO)) :
  Forall good_write pre ->
  writer pre = map (fun p => fst (Encode (fst p))) pre /\
  (fst (writeMessage (Encode m) io) <> None ->
   writer (pre ++ (m, io) :: post)
   = (map (fun p => fst (Encode (fst p))) pre ++ [snd (writeMessage (Encode m) io)])%list).
Proof.
  assert (Hout : forall q, good_write q ->
            snd (writeMessage (Encode (fst q)) (snd q)) = fst (Encode (fst q))).
  { intros [m' io'] Hg. unfold good_write in Hg. simpl in *.
    destruct (Encode m') as [buf e]. unfold writeMessage in *.
    destruct e as [[|]|]; try discriminate;
      destruct (deadline_ok io'); try discriminate;
      destruct (write_res io'); try discriminate;
      destruct (Nat.eqb _ _); try discriminate;
      destruct (flush_ok io'); try discriminate; reflexivity. }
  intros HF. split.
  - induction HF as [|[m' io'] pre Hg _ IH]; [reflexivity|].
    simpl. pose proof (Hout _ Hg) as Ho. unfold good_write in Hg. simpl in *.
    destruct (writeMessage (Encode m') io') as [err out]. simpl in *.
    subst. rewrite IH. reflexivity.
  - intros Hbad. induction HF as [|[m' io'] pre Hg _ IH].
    + simpl. destruct (writeMessage (Encode m) io) as [[err|] out];
        [reflexivity | contradiction Hbad; reflexivity].
    + simpl. pose proof (Hout _ Hg) as Ho. unfold good_write in Hg. simpl in *.
      destruct (writeMessage (Encode m') io') as [err out]. simpl in *.
      subst. rewrite IH. reflexivity.
Qed.

Lemma writer_order_witness :
  writer [(msg "NICK" ["bot"], okIO ("NICK bot" ++ crlf));
          (msg "USER" ["bot"; "bot"; "0"; "bot"], mkSockIO false None true);
          (msg "JOIN" ["#test"], okIO ("JOIN #test" ++ crlf))]
  = ["NICK bot" ++ crlf; ""].
Proof.
  refine (proj2 (writer_order [(msg "NICK" ["bot"], okIO ("NICK bot" ++ crlf))]
            (msg "USER" ["bot"; "bot"; "0"; "bot"]) (mkSockIO false None true)
            [(msg "JOIN" ["#test"], okIO ("JOIN #test" ++ crlf))] _) _).
  - constructor; [reflexivity | constructor].
  - discriminate.
Defined.

(** ** Bounded channels *)

Lemma pushRead_done (c c' : Conn) (m : Message) :
  pushRead c m = Done c' ->
  readq c' = (readq c ++ [m])%list /\ length (readq c') <= chanCap.
Proof.
  unfold pushRead. destruct (readq_closed c); [discriminate|].
  destruct (Nat.leb_spec chanCap (length (readq c))); [discriminate|].
  intros E; inversion E; subst. simpl. rewrite length_app. simpl. split; [reflexivity | lia].
Qed.


(** The [reader] goroutine never grows the receive channel past 1024
    messages and never drops or reorders what is already queued. *)
Theorem reader_bounded (rs : list ReadRes) (c c' : Conn) :
  length (readq c) <= chanCap ->
  reader rs c = Done c' ->
  length (readq c') <= chanCap /\ exists new, readq c' = (readq c ++ new)%list.
Proof.
  revert c. induction rs as [|r rs IH]; intros c Hlen H.
  - simpl in H. inversion H; subst. split; [exact Hlen | exists []; symmetry; apply app_nil_r].
  - simpl in H. destruct (readMessage r) as [m|u].
    + destruct (pushRead c m) as [c1| |] eqn:Hp; simpl in H; try discriminate.
      destruct (pushRead_done c c1 m Hp) as [Hq Hl].
      destruct (IH c1 Hl H) as [Hl' [new Hn]].
      split; [exact Hl'|]. exists (m :: new). rewrite Hn, Hq, <- app_assoc. reflexivity.
    + destruct (readq_closed c); inversion H; subst.
      simpl. split; [exact Hlen | exists []; symmetry; apply app_nil_r].
Qed.

Lemma reader_bounded_witness :
  length (readq freshConn) <= chanCap /\
  reader [RdLine (msg "PING" ["x"]) None; RdErr] freshConn
  = Done (set_readq freshConn [msg "PING" ["x"]] true false) /\
  length (readq (set_readq freshConn [msg "PING" ["x"]] true false)) <= chanCap.
Proof.
  assert (H0 : length (readq freshConn) <= chanCap) by (vm_compute; lia).
  assert (H1 : reader [RdLine (msg "PING" ["x"]) None; RdErr] freshConn
               = Done (set_readq freshConn [msg "PING" ["x"]] true false))
    by reflexivity.
  split; [exact H0|]. split; [exact H1|].
  exact (proj1 (reader_bounded _ freshConn _ H0 H1)).
Defined.

(** ** The dispatcher *)

(** A PRIVMSG to a channel with a text parameter is forwarded as exactly
    one event carrying the channel ([Params[0]]), the sender prefix and the
    text ([Params[1]]); the connection is left as it was. *)
Theorem main_step_channel_privmsg (c : Conn) (pre rest tx : string) (ps : list string) :
  main_step c (mkMessage pre "PRIVMSG" (String "#" rest :: tx :: ps))
  = Done (c, [mkEvent (String "#" rest) pre tx]).
Proof. reflexivity. Qed.

(** The only change a dispatcher iteration makes to the connection is one
    PONG, carrying the PING's first parameter, appended to the send channel;
    messages other than PING and PRIVMSG are dropped with no effect. *)
Theorem main_step_effects (c c' : Conn) (m : Message) (evs : list Event) :
  (main_step c m = Done (c', evs) ->
   c' = c \/
   (Command m = "PING" /\ evs = [] /\
    exists p ps, Params m = p :: ps /\ c' = set_wchan c (wchan c ++ [msg "PONG" [p]]) false)) /\
  (Command m <> "PING" -> Command m <> "PRIVMSG" -> main_step c m = Done (c, [])).
Proof.
  destruct m as [pre cmd ps]. unfold main_step; simpl.
  split.
  - destruct (String.eqb_spec cmd "PING") as [->|Hping].
    + destruct ps as [|p ps]; simpl; [discriminate|].
      unfold Write. destruct (wchan_closed c); [discriminate|].
      destruct (Nat.leb chanCap (length (wchan c))); [discriminate|].
      simpl. intros H; inversion H; subst. right. split; [reflexivity|].
      split; [reflexivity|]. exists p, ps. split; reflexivity.
    + destruct (String.eqb cmd "PRIVMSG"); simpl.
      * destruct ps as [|p0 ps]; simpl; [discriminate|].
        unfold sindex. destruct (String.get 0 p0) as [b|]; simpl; [|discriminate].
        destruct (Ascii.eqb b "#"%char); simpl.
        -- unfold dispatchEvent, index; simpl.
           destruct ps as [|tx ps]; simpl; [discriminate|].
           intros H; inversion H; subst. left; reflexivity.
        -- intros H; inversion H; subst. left; reflexivity.
      * intros H; inversion H; subst. left; reflexivity.
  - intros H1 H2. apply String.eqb_neq in H1, H2. rewrite H1, H2. reflexivity.
Qed.

Lemma main_step_effects_witness :
  main_step freshConn (mkMessage "srv" "NOTICE" ["*"; "hi"]) = Done (freshConn, []).
Proof.
  apply (proj2 (main_step_effects freshConn freshConn (mkMessage "srv" "NOTICE" ["*"; "hi"]) []));
    discriminate.
Defined.

Lemma set_wchan_same (c : Conn) :
  wchan_closed c = false -> set_wchan c (wchan c ++ []) false = c.
Proof. intros H. destruct c; simpl in *; subst. rewrite app_nil_r. reflexivity. Qed.

Lemma main_step_expected (c : Conn) (m : Message) :
  no_panic m -> wchan_closed c = false ->
  length (wchan c) + length (expected_pongs m) <= chanCap ->
  main_step c m = Done (set_wchan c (wchan c ++ expected_pongs m) false, expected_events m).
Proof.
  intros [Hping Hpriv] Hcl Hlen.
  destruct m as [pre cmd ps]; simpl in *.
  unfold main_step, expected_pongs, expected_events; simpl.
  destruct (String.eqb_spec cmd "PING") as [->|Hp].
  - destruct ps as [|p ps]; [contradiction (Hping eq_refl); reflexivity|].
    simpl in *. rewrite Write_ok by (auto; lia). reflexivity.
  - destruct (String.eqb_spec cmd "PRIVMSG") as [->|Hq].
    + destruct (Hpriv eq_refl) as [ch [rest [ps' [-> Hps]]]].
      simpl. unfold sindex; simpl.
      destruct (Ascii.eqb_spec ch "#"%char) as [->|Hch]; simpl.
      * destruct ps' as [|tx ps']; [contradiction (Hps eq_refl); reflexivity|].
        simpl. rewrite set_wchan_same by exact Hcl. reflexivity.
      * rewrite set_wchan_same by exact Hcl.
        destruct ps' as [|tx ps']; reflexivity.
    + simpl. rewrite set_wchan_same by exact Hcl. reflexivity.
Qed.

(** Over a whole session, the dispatcher loop on messages it does not panic
    on sends exactly the PONGs of the PINGs and delivers exactly the events
    of the channel PRIVMSGs, both in arrival order; when the receive channel
    closes it closes the send channel and the socket. *)
Theorem main_loop_spec (c : Conn) (ms : list Message) :
  Forall no_panic ms -> wchan_closed c = false ->
  length (wchan c) + length (flat_map expected_pongs ms) <= chanCap ->
  main_loop c ms
  = Done (set_sock (set_wchan c (wchan c ++ flat_map expected_pongs ms) true) false,
          flat_map expected_events ms).
Proof.
  intros HF. revert c. induction HF as [|m ms Hm _ IH]; intros c Hcl Hlen.
  - simpl. unfold Close. rewrite Hcl. simpl. rewrite app_nil_r. reflexivity.
  - simpl in Hlen |- *. rewrite length_app in Hlen.
    rewrite main_step_expected by (auto; lia). simpl.
    rewrite IH; simpl; [| reflexivity | rewrite length_app; lia].
    rewrite <- app_assoc. reflexivity.
Qed.

Lemma main_loop_spec_witness :
  main_loop freshConn [msg "PING" ["abc"]; mkMessage "alice!u@h" "PRIVMSG" ["#general"; "hello there"]]
  = Done (set_sock (set_wchan freshConn [msg "PONG" ["abc"]] true) false,
          [mkEvent "#general" "alice!u@h" "hello there"]).
Proof.
  apply (main_loop_spec freshConn
           [msg "PING" ["abc"]; mkMessage "alice!u@h" "PRIVMSG" ["#general"; "hello there"]]).
  - constructor.
    + split; [intros _; discriminate | intros H; discriminate].
    + constructor; [|constructor].
      split; [intros H; discriminate|].
      intros _. exists "#"%char, "general", ["hello there"]. split; [reflexivity|].
      intros _; discriminate.
  - reflexivity.
  - vm_compute; lia.
Defined.

(** ** [getArgs] *)

(** [getArgs] accepts the flags exactly when both ports are positive and
    the URL, IRC host, nick and channel are non-empty, and then returns them
    unchanged; a non-positive listen port is reported first, whatever the
    other flags are. *)
Theorem getArgs_spec (lp : Z) (u h : string) (ip : Z) (n ch : string) :
  (getArgs lp u h ip n ch = inl (mkArgs lp u h ip n ch) <->
   (0 < lp)%Z /\ u <> "" /\ h <> "" /\ (0 < ip)%Z /\ n <> "" /\ ch <> "") /\
  (forall a, getArgs lp u h ip n ch = inl a -> a = mkArgs lp u h ip n ch) /\
  ((lp <= 0)%Z -> getArgs lp u h ip n ch = inr "listen port must be > 0").
Proof.
  unfold getArgs.
  destruct (Z.leb_spec lp 0); [|
  destruct (String.eqb_spec u ""); [|
  destruct (String.eqb_spec h ""); [|
  destruct (Z.leb_spec ip 0); [|
  destruct (String.eqb_spec n ""); [|
  destruct (String.eqb_spec ch "")]]]]];
  repeat split; intros; try discriminate; try lia; try congruence;
  repeat match goal with H : _ /\ _ |- _ => destruct H end;
  try lia; try congruence.
Qed.

Lemma getArgs_spec_witness :
  getArgs 0 "http://localhost:8080/event" "localhost" 6667 "bot" "#test"
  = inr "listen port must be > 0".
Proof.
  apply (proj2 (proj2 (getArgs_spec 0 "http://localhost:8080/event" "localhost" 6667 "bot" "#test"))).
  lia.
Defined.

(** ** The /event endpoint *)

(** [EventHandler] answers 400 and posts nothing for a non-POST request, an
    unreadable body, a body that is not a JSON object, or one whose [type]
    is missing or not a string; an unknown [type] string gets an empty 200
    and posts nothing. *)
Theorem EventHandler_rejects (UnmarshalMap : string -> option JMap)
  (jsonString : string -> string) (r : Request) :
  ((method r <> "POST" \/ reqBody r = None \/
    (exists buf, reqBody r = Some buf /\ UnmarshalMap buf = None) \/
    (exists buf p, reqBody r = Some buf /\ UnmarshalMap buf = Some p /\
       forall s, lookup "type" p <> Some (JStr s))) ->
   EventHandler UnmarshalMap jsonString r = (mkResponse (Some 400%Z) "", [])) /\
  (forall buf p t, method r = "POST" -> reqBody r = Some buf -> UnmarshalMap buf = Some p ->
     lookup "type" p = Some (JStr t) ->
     t <> "url_verification" -> t <> "event_callback" ->
     EventHandler UnmarshalMap jsonString r = (emptyResponse, [])).
Proof.
  split.
  - intros H. unfold EventHandler.
    destruct (String.eqb_spec (method r) "POST") as [Hm|Hm]; [|reflexivity].
    destruct H as [H|[H|[[buf [Hb Hu]]|[buf [p [Hb [Hu Ht]]]]]]].
    + contradiction.
    + rewrite H. reflexivity.
    + rewrite Hb, Hu. reflexivity.
    + rewrite Hb, Hu.
      destruct (lookup "type" p) as [[s| | | | |]|]; try reflexivity.
      exfalso. exact (Ht s eq_refl).
  - intros buf p t Hm Hb Hu Ht H1 H2. unfold EventHandler.
    rewrite Hm, Hb, Hu, Ht. simpl.
    apply String.eqb_neq in H1, H2. rewrite H1, H2. reflexivity.
Qed.

Lemma EventHandler_rejects_witness :
  EventHandler (fun _ => Some [("type", JNum)]) (fun s => s) (mkRequest "POST" (Some "{"))
  = (mkResponse (Some 400%Z) "", []).
Proof.
  apply (proj1 (EventHandler_rejects (fun _ => Some [("type", JNum)]) (fun s => s)
                  (mkRequest "POST" (Some "{")))).
  right; right; right. exists "{", [("type", JNum)].
  split; [reflexivity|]. split; [reflexivity|]. intros s; discriminate.
Defined.

(** For an [event_callback] whose [event] is a [message]: a [bot_message]
    subtype is ignored (empty 200, no reply); otherwise a string [channel]
    gets exactly one "hi there" reply in that channel and an empty 200, and
    a missing channel gets a 400 with no reply. A [url_verification] with a
    string [challenge] is answered 200 with that challenge echoed. *)
Theorem EventHandler_message (UnmarshalMap : string -> option JMap)
  (jsonString : string -> string) (buf : string) (p ev : JMap) :
  UnmarshalMap buf = Some p ->
  (lookup "type" p = Some (JStr "event_callback") ->
   lookup "event" p = Some (JObj ev) ->
   lookup "type" ev = Some (JStr "message") ->
   (lookup "subtype" ev = Some (JStr "bot_message") ->
    EventHandler UnmarshalMap jsonString (mkRequest "POST" (Some buf)) = (emptyResponse, [])) /\
   (forall ch, (forall st, lookup "subtype" ev = Some (JStr st) -> st <> "bot_message") ->
    lookup "channel" ev = Some (JStr ch) ->
    EventHandler UnmarshalMap jsonString (mkRequest "POST" (Some buf))
    = (emptyResponse, [(ch, "hi there")])) /\
   ((forall st, lookup "subtype" ev = Some (JStr st) -> st <> "bot_message") ->
    lookup "channel" ev = None ->
    EventHandler UnmarshalMap jsonString (mkRequest "POST" (Some buf))
    = (mkResponse (Some 400%Z) "", []))) /\
  (forall s, lookup "type" p = Some (JStr "url_verification") ->
   lookup "challenge" p = Some (JStr s) ->
   EventHandler UnmarshalMap jsonString (mkRequest "POST" (Some buf))
   = (mkResponse (Some 200%Z)
        ("{" ++ dq ++ "challenge" ++ dq ++ ":" ++ jsonString s ++ "}"), [])).
Proof.
  intros Hu.
  split.
  - intros Ht He Hev. unfold EventHandler, EventEventCallback, EventMessageChannels.
    simpl. rewrite Hu, Ht. simpl. rewrite He, Hev. simpl.
    split; [|split].
    + intros Hs. rewrite Hs. reflexivity.
    + intros ch Hnb Hch.
      destruct (lookup "subtype" ev) as [[st| | | | |]|] eqn:Hs;
        try (rewrite Hch; reflexivity).
      specialize (Hnb st eq_refl). apply String.eqb_neq in Hnb. rewrite Hnb, Hch.
      reflexivity.
    + intros Hnb Hch.
      destruct (lookup "subtype" ev) as [[st| | | | |]|] eqn:Hs;
        try (rewrite Hch; reflexivity).
      specialize (Hnb st eq_refl). apply String.eqb_neq in Hnb. rewrite Hnb, Hch.
      reflexivity.
  - intros s Ht Hc. unfold EventHandler, EventURLVerification. simpl.
    rewrite Hu, Ht. simpl. rewrite Hc. reflexivity.
Qed.

Lemma EventHandler_message_witness :
  EventHandler
    (fun _ => Some [("type", JStr "event_callback");
                    ("event", JObj [("type", JStr "message"); ("channel", JStr "#general");
                                    ("user", JStr "alice"); ("text", JStr "hello")])])
    (fun s => s) (mkRequest "POST" (Some "body"))
  = (emptyResponse, [("#general", "hi there")]).
Proof.
  refine (proj1 (proj2 (proj1 (EventHandler_message
    (fun _ => Some [("type", JStr "event_callback");
                    ("event", JObj [("type", JStr "message"); ("channel", JStr "#general");
                                    ("user", JStr "alice"); ("text", JStr "hello")])])
    (fun s => s) "body"
    [("type", JStr "event_callback");
     ("event", JObj [("type", JStr "message"); ("channel", JStr "#general");
                     ("user", JStr "alice"); ("text", JStr "hello")])]
    [("type", JStr "message"); ("channel", JStr "#general");
     ("user", JStr "alice"); ("text", JStr "hello")] eq_refl) eq_refl eq_refl eq_refl))
    "#general" _ eq_refl).
  intros st H; discriminate.
Defined.
